(** * go-role: the user repository (user-role and user-permission associations)

    A shallow embedding of [repositories/userRepository.go] together with the
    pivot models it stores, and the properties of its action and control
    methods. *)

From Stdlib Require Import ZArith NArith Lia.
From stdpp Require Import base decidable countable strings gmap fin_sets list.

Open Scope Z_scope.

(** ** Basic data *)

(** [uuid.UUID] is a 128-bit identifier; it is only ever compared. *)
Abbreviation UUID := N (only parsing).
(** Go's [uint]; the identifiers are only ever compared, never computed on. *)
Abbreviation uint := N (only parsing).
(** Go's [int64], the type of [Count] and of [Len]. *)
Abbreviation int64 := Z (only parsing).

(** ** package pivot *)

Module pivot.

(** [UserRoles]: the database model of user roles relationships.  Both
    columns carry [gorm:"primary_key"]. *)
Module UserRoles.
Record t := mk { UserID : UUID; RoleID : uint }.

Definition TableName : string := "user_roles".

#[global] Instance eq_dec : EqDecision t.
Proof. solve_decision. Defined.

#[global] Instance countable : Countable t :=
  inj_countable' (λ r, (UserID r, RoleID r)) (λ p, mk p.1 p.2)
                 (λ r, match r with mk _ _ => eq_refl end).
End UserRoles.

(** [UserPermissions]: the database model of user permissions
    relationships.  Both columns carry [gorm:"primary_key"]. *)
Module UserPermissions.
Record t := mk { UserID : UUID; PermissionID : uint }.

Definition TableName : string := "user_permissions".

#[global] Instance eq_dec : EqDecision t.
Proof. solve_decision. Defined.

#[global] Instance countable : Countable t :=
  inj_countable' (λ r, (UserID r, PermissionID r)) (λ p, mk p.1 p.2)
                 (λ r, match r with mk _ _ => eq_refl end).
End UserPermissions.

End pivot.

(** ** package models *)

Module models.

(** Modelled from the spec: [models.Role] is not among the sources.  A role
    is identified by a numeric surrogate key; its other attributes are never
    read by the repository. *)
Module Role.
Record t := mk { ID : uint }.
End Role.

(** Modelled from the spec: [models.Permission] is not among the sources.  A
    permission is identified by a numeric surrogate key. *)
Module Permission.
Record t := mk { ID : uint }.
End Permission.

End models.

(** ** package collections *)

Module collections.

(** Modelled from the spec: the [collections] package is not among the
    sources.  A collection is an ordinary sequence with stable iteration
    order; uniqueness is not enforced by the collection itself.  [Origin]
    gives the underlying entities, [IDs] their keys in order, [Len] the
    number of stored entities. *)
Module Role.
Definition t := list models.Role.t.
Definition Origin (u : t) : list models.Role.t := u.
Definition IDs (u : t) : list uint := map models.Role.ID u.
Definition Len (u : t) : int64 := Z.of_nat (length u).
End Role.

Module Permission.
Definition t := list models.Permission.t.
Definition Origin (u : t) : list models.Permission.t := u.
Definition IDs (u : t) : list uint := map models.Permission.ID u.
Definition Len (u : t) : int64 := Z.of_nat (length u).
End Permission.

End collections.

(** ** The storage handle ([gorm.DB])

    The store is external to the repository.  Every statement sent to it
    either fails, reporting an error and changing nothing, or succeeds with
    its SQL meaning.  Which of the two happens is not up to the repository, so
    every statement takes the failure (if any) the store answers with as its
    [fault] argument: connectivity loss, a transaction conflict, or the
    library refusing the statement before it reaches the database. *)

Module gorm.

Inductive Error :=
| ErrTxDone                 (* the transaction was already closed *)
| ErrDuplicatedKey          (* a uniqueness constraint was violated *)
| ErrStorage (code : N).    (* any other failure reported by the store *)

(** Go's [error]: [None] is [nil]. *)
Abbreviation error := (option Error) (only parsing).

(** The two association tables.  The primary key of each is the pair of
    its columns, so a table holds no duplicate row: a finite set. *)
Record DB := mkDB {
  user_roles : gset pivot.UserRoles.t;
  user_permissions : gset pivot.UserPermissions.t
}.

Section Statements.
Context {R : Type} `{Countable R}.

(** Does inserting [values] into [t] hit the primary key? *)
Definition conflicts (t : gset R) (values : list R) : bool :=
  negb (bool_decide (NoDup values)) ||
  existsb (λ v, bool_decide (v ∈ t)) values.

(** [db.Create(&values)], plain or under
    [Clauses(clause.OnConflict{DoNothing: true})]: conflicting rows are
    an error in the first case and are skipped in the second. *)
Definition Create (doNothing : bool) (fault : error)
           (t : gset R) (values : list R) : gset R * error :=
  match fault with
  | Some e => (t, Some e)
  | None =>
      if doNothing then (t ∪ list_to_set values, None)
      else if conflicts t values then (t, Some ErrDuplicatedKey)
      else (t ∪ list_to_set values, None)
  end.

(** [db.Where(cond).Delete(&Model{})]: delete the rows matching [cond]. *)
Definition DeleteWhere (fault : error) (t : gset R)
           (cond : R → Prop) `{∀ r, Decision (cond r)} : gset R * error :=
  match fault with
  | Some e => (t, Some e)
  | None => (filter (λ r, ¬ cond r) t, None)
  end.

(** [db.Delete(&values)]: delete the rows whose primary key is that of one
    of [values].  Every column of a pivot model belongs to the key. *)
Definition Delete (fault : error) (t : gset R) (values : list R)
  : gset R * error :=
  match fault with
  | Some e => (t, Some e)
  | None => (t ∖ list_to_set values, None)
  end.

(** [db.Table(name).Where(cond).Count(&count)]: on failure [count] keeps
    its zero value. *)
Definition Count (fault : error) (t : gset R)
           (cond : R → Prop) `{∀ r, Decision (cond r)} : int64 * error :=
  match fault with
  | Some e => (0, Some e)
  | None => (Z.of_nat (size (filter cond t)), None)
  end.
End Statements.

(** A transaction handle: the rows as the transaction sees them, the rows
    as they were when it began, and whether it was closed. *)
Record Tx := mkTx { tx_rows : DB; tx_saved : DB; tx_done : bool }.

Definition Begin (fault : error) (db : DB) : option Tx * error :=
  match fault with
  | Some e => (None, Some e)
  | None => (Some (mkTx db db false), None)
  end.

(** [tx.Rollback()]: undo every statement of the transaction.  On a closed
    transaction it only reports [ErrTxDone]. *)
Definition Rollback (tx : Tx) : Tx * error :=
  if tx_done tx then (tx, Some ErrTxDone)
  else (mkTx (tx_saved tx) (tx_saved tx) true, None).

(** [tx.Commit()]: a commit that fails leaves the transaction open. *)
Definition Commit (fault : error) (tx : Tx) : Tx * error :=
  if tx_done tx then (tx, Some ErrTxDone)
  else match fault with
       | Some e => (tx, Some e)
       | None => (mkTx (tx_rows tx) (tx_rows tx) true, None)
       end.

(** [db.Transaction(fc)]: begin, run [fc], commit when it returned [nil];
    roll back on a block error or a commit error.  The result of the
    deferred [Rollback] is dropped. *)
Definition Transaction (begin commit : error) (fc : Tx → Tx * error)
           (db : DB) : DB * error :=
  match Begin begin db with
  | (Some tx, _) =>
      let '(tx, err) := fc tx in
      match err with
      | None =>
          let '(tx, err) := Commit commit tx in
          match err with
          | None => (tx_rows tx, None)
          | Some e => (tx_rows (Rollback tx).1, Some e)
          end
      | Some e => (tx_rows (Rollback tx).1, Some e)
      end
  | (None, err) => (db, err)
  end.

(** A statement issued through a transaction handle. *)
Definition tx_exec (stmt : DB → DB * error) (tx : Tx) : Tx * error :=
  if tx_done tx then (tx, Some ErrTxDone)
  else let '(db, err) := stmt (tx_rows tx) in
       (mkTx db (tx_saved tx) false, err).

(** The model a statement is given selects the table it runs on. *)
Definition on_user_roles
           (stmt : gset pivot.UserRoles.t → gset pivot.UserRoles.t * error)
           (db : DB) : DB * error :=
  let '(t, err) := stmt (user_roles db) in
  (mkDB t (user_permissions db), err).

Definition on_user_permissions
           (stmt : gset pivot.UserPermissions.t →
                   gset pivot.UserPermissions.t * error)
           (db : DB) : DB * error :=
  let '(t, err) := stmt (user_permissions db) in
  (mkDB (user_roles db) t, err).

End gorm.

(** ** package repositories *)

Module repositories.
Import gorm.

(** [UserRepository]: the data access layer of user. *)
Record UserRepository := mk { Database : DB }.

(** The loops that build the rows to write: one row per entity of the
    collection, appended in iteration order. *)
Definition userPermissions_of (userID : UUID)
           (permissions : collections.Permission.t)
  : list pivot.UserPermissions.t :=
  fold_left
    (λ userPermissions permission,
       userPermissions ++
         [pivot.UserPermissions.mk userID (models.Permission.ID permission)])
    (collections.Permission.Origin permissions) [].

Definition userRoles_of (userID : UUID) (roles : collections.Role.t)
  : list pivot.UserRoles.t :=
  fold_left
    (λ userRoles role,
       userRoles ++ [pivot.UserRoles.mk userID (models.Role.ID role)])
    (collections.Role.Origin roles) [].

(** *** Actions *)

(** [AddPermissions]: add direct permissions to user. *)
Definition AddPermissions (fault : error) (repository : UserRepository)
           (userID : UUID) (permissions : collections.Permission.t)
  : UserRepository * error :=
  let userPermissions := userPermissions_of userID permissions in
  let '(db, err) :=
    on_user_permissions (λ t, Create true fault t userPermissions)
                        (Database repository) in
  (mk db, err).

(** [ReplacePermissions]: replace direct permissions of user. *)
Definition ReplacePermissions (begin delete create commit : error)
           (repository : UserRepository)
           (userID : UUID) (permissions : collections.Permission.t)
  : UserRepository * error :=
  let '(db, err) :=
    Transaction begin commit
      (λ tx,
         let '(tx, err) :=
           tx_exec
             (on_user_permissions
                (λ t, DeleteWhere delete t
                        (λ r, pivot.UserPermissions.UserID r = userID)))
             tx in
         match err with
         | Some e => ((Rollback tx).1, Some e)
         | None =>
             let userPermissions := userPermissions_of userID permissions in
             let '(tx, err) :=
               tx_exec
                 (on_user_permissions
                    (λ t, Create true create t userPermissions))
                 tx in
             match err with
             | Some e => ((Rollback tx).1, Some e)
             | None => (tx, None)
             end
         end)
      (Database repository) in
  (mk db, err).

(** [RemovePermissions]: remove direct permissions of user. *)
Definition RemovePermissions (fault : error) (repository : UserRepository)
           (userID : UUID) (permissions : collections.Permission.t)
  : UserRepository * error :=
  let userPermissions := userPermissions_of userID permissions in
  let '(db, err) :=
    on_user_permissions (λ t, Delete fault t userPermissions)
                        (Database repository) in
  (mk db, err).

(** [ClearPermissions]: remove all direct permissions of user. *)
Definition ClearPermissions (fault : error) (repository : UserRepository)
           (userID : UUID) : UserRepository * error :=
  let '(db, err) :=
    on_user_permissions
      (λ t, DeleteWhere fault t
              (λ r, pivot.UserPermissions.UserID r = userID))
      (Database repository) in
  (mk db, err).

(** [AddRoles]: add roles to user. *)
Definition AddRoles (fault : error) (repository : UserRepository)
           (userID : UUID) (roles : collections.Role.t)
  : UserRepository * error :=
  let userRoles := userRoles_of userID roles in
  let '(db, err) :=
    on_user_roles (λ t, Create true fault t userRoles)
                  (Database repository) in
  (mk db, err).

(** [ReplaceRoles]: replace roles of user. *)
Definition ReplaceRoles (begin delete create commit : error)
           (repository : UserRepository)
           (userID : UUID) (roles : collections.Role.t)
  : UserRepository * error :=
  let '(db, err) :=
    Transaction begin commit
      (λ tx,
         let '(tx, err) :=
           tx_exec
             (on_user_roles
                (λ t, DeleteWhere delete t
                        (λ r, pivot.UserRoles.UserID r = userID)))
             tx in
         match err with
         | Some e => ((Rollback tx).1, Some e)
         | None =>
             let userRoles := userRoles_of userID roles in
             let '(tx, err) :=
               tx_exec (on_user_roles (λ t, Create true create t userRoles))
                       tx in
             match err with
             | Some e => ((Rollback tx).1, Some e)
             | None => (tx, None)
             end
         end)
      (Database repository) in
  (mk db, err).

(** [RemoveRoles]: remove roles of user. *)
Definition RemoveRoles (fault : error) (repository : UserRepository)
           (userID : UUID) (roles : collections.Role.t)
  : UserRepository * error :=
  let userRoles := userRoles_of userID roles in
  let '(db, err) :=
    on_user_roles (λ t, Delete fault t userRoles) (Database repository) in
  (mk db, err).

(** [ClearRoles]: remove all roles of user. *)
Definition ClearRoles (fault : error) (repository : UserRepository)
           (userID : UUID) : UserRepository * error :=
  let '(db, err) :=
    on_user_roles
      (λ t, DeleteWhere fault t (λ r, pivot.UserRoles.UserID r = userID))
      (Database repository) in
  (mk db, err).

(** *** Controls *)

(** [HasRole]: does the user have the given role? *)
Definition HasRole (fault : error) (repository : UserRepository)
           (userID : UUID) (role : models.Role.t) : bool * error :=
  let '(count, err) :=
    Count fault (user_roles (Database repository))
          (λ r, pivot.UserRoles.UserID r = userID ∧
                pivot.UserRoles.RoleID r = models.Role.ID role) in
  (count >? 0, err).

(** [HasAllRoles]: does the user have all the given roles? *)
Definition HasAllRoles (fault : error) (repository : UserRepository)
           (userID : UUID) (roles : collections.Role.t) : bool * error :=
  let '(count, err) :=
    Count fault (user_roles (Database repository))
          (λ r, pivot.UserRoles.UserID r = userID ∧
                pivot.UserRoles.RoleID r ∈ collections.Role.IDs roles) in
  (collections.Role.Len roles =? count, err).

(** [HasAnyRoles]: does the user have any of the given roles? *)
Definition HasAnyRoles (fault : error) (repository : UserRepository)
           (userID : UUID) (roles : collections.Role.t) : bool * error :=
  let '(count, err) :=
    Count fault (user_roles (Database repository))
          (λ r, pivot.UserRoles.UserID r = userID ∧
                pivot.UserRoles.RoleID r ∈ collections.Role.IDs roles) in
  (count >? 0, err).

(** [HasDirectPermission]: does the user have the given permission? (not
    including the permissions of the roles) *)
Definition HasDirectPermission (fault : error)
           (repository : UserRepository)
           (userID : UUID) (permission : models.Permission.t)
  : bool * error :=
  let '(count, err) :=
    Count fault (user_permissions (Database repository))
          (λ r, pivot.UserPermissions.UserID r = userID ∧
                pivot.UserPermissions.PermissionID r =
                  models.Permission.ID permission) in
  (count >? 0, err).

(** [HasAllDirectPermissions]: does the user have all the given
    permissions? (not including the permissions of the roles) *)
Definition HasAllDirectPermissions (fault : error)
           (repository : UserRepository)
           (userID : UUID) (permissions : collections.Permission.t)
  : bool * error :=
  let '(count, err) :=
    Count fault (user_permissions (Database repository))
          (λ r, pivot.UserPermissions.UserID r = userID ∧
                pivot.UserPermissions.PermissionID r ∈
                  collections.Permission.IDs permissions) in
  (collections.Permission.Len permissions =? count, err).

(** [HasAnyDirectPermissions]: does the user have any of the given
    permissions? (not including the permissions of the roles) *)
Definition HasAnyDirectPermissions (fault : error)
           (repository : UserRepository)
           (userID : UUID) (permissions : collections.Permission.t)
  : bool * error :=
  let '(count, err) :=
    Count fault (user_permissions (Database repository))
          (λ r, pivot.UserPermissions.UserID r = userID ∧
                pivot.UserPermissions.PermissionID r ∈
                  collections.Permission.IDs permissions) in
  (count >? 0, err).

(** *** The actions of [IUserRepository]

    A call of one of the eight mutating methods, with the answers of the
    store to the statements it issues. *)
Inductive Action :=
| CallAddPermissions (fault : error) (permissions : collections.Permission.t)
| CallReplacePermissions (begin delete create commit : error)
                         (permissions : collections.Permission.t)
| CallRemovePermissions (fault : error)
                        (permissions : collections.Permission.t)
| CallClearPermissions (fault : error)
| CallAddRoles (fault : error) (roles : collections.Role.t)
| CallReplaceRoles (begin delete create commit : error)
                   (roles : collections.Role.t)
| CallRemoveRoles (fault : error) (roles : collections.Role.t)
| CallClearRoles (fault : error).

Definition call (a : Action) (repository : UserRepository) (userID : UUID)
  : UserRepository * error :=
  match a with
  | CallAddPermissions f ps => AddPermissions f repository userID ps
  | CallReplacePermissions b d c m ps =>
      ReplacePermissions b d c m repository userID ps
  | CallRemovePermissions f ps => RemovePermissions f repository userID ps
  | CallClearPermissions f => ClearPermissions f repository userID
  | CallAddRoles f rs => AddRoles f repository userID rs
  | CallReplaceRoles b d c m rs => ReplaceRoles b d c m repository userID rs
  | CallRemoveRoles f rs => RemoveRoles f repository userID rs
  | CallClearRoles f => ClearRoles f repository userID
  end.

(** Which of the two association tables an action is about. *)
Definition about_roles (a : Action) : bool :=
  match a with
  | CallAddRoles _ _ | CallReplaceRoles _ _ _ _ _
  | CallRemoveRoles _ _ | CallClearRoles _ => true
  | _ => false
  end.

End repositories.

Import gorm repositories.

(** ** Sample data *)

Definition admin : models.Role.t := models.Role.mk 1.
Definition editor : models.Role.t := models.Role.mk 2.
Definition viewer : models.Role.t := models.Role.mk 3.
Definition alice : UUID := 7%N.
Definition bob : UUID := 8%N.
Definition read_posts : models.Permission.t := models.Permission.mk 10.
Definition write_posts : models.Permission.t := models.Permission.mk 11.

(** An empty store, and one where alice is admin and editor, bob is admin,
    and alice may read posts. *)
Definition empty_repository : UserRepository := mk (mkDB ∅ ∅).
Definition sample_repository : UserRepository :=
  mk (mkDB {[ pivot.UserRoles.mk alice 1; pivot.UserRoles.mk alice 2;
              pivot.UserRoles.mk bob 1 ]}
           {[ pivot.UserPermissions.mk alice 10 ]}).

(** ** The rows built from a collection *)

Lemma fold_left_append_map {A B} (f : A → B) (l : list A) (acc : list B) :
  fold_left (λ acc x, acc ++ [f x]) l acc = acc ++ map f l.
Proof.
  revert acc. induction l as [|x l IH]; intros acc; simpl.
  - by rewrite app_nil_r.
  - rewrite IH. by rewrite <- app_assoc.
Qed.

Lemma userRoles_of_map u (R : collections.Role.t) :
  userRoles_of u R = map (pivot.UserRoles.mk u) (collections.Role.IDs R).
Proof.
  unfold userRoles_of, collections.Role.Origin, collections.Role.IDs.
  rewrite (fold_left_append_map (λ role, pivot.UserRoles.mk u (models.Role.ID role))).
  simpl. by rewrite map_map.
Qed.

Lemma userPermissions_of_map u (P : collections.Permission.t) :
  userPermissions_of u P =
  map (pivot.UserPermissions.mk u) (collections.Permission.IDs P).
Proof.
  unfold userPermissions_of, collections.Permission.Origin,
    collections.Permission.IDs.
  rewrite (fold_left_append_map
             (λ p, pivot.UserPermissions.mk u (models.Permission.ID p))).
  simpl. by rewrite map_map.
Qed.

Lemma elem_of_userRoles_of u (R : collections.Role.t) r :
  r ∈ userRoles_of u R ↔
  pivot.UserRoles.UserID r = u ∧
  pivot.UserRoles.RoleID r ∈ collections.Role.IDs R.
Proof.
  rewrite userRoles_of_map, list_elem_of_fmap. split.
  - intros (id & -> & Hid). done.
  - intros [Hu Hid]. exists (pivot.UserRoles.RoleID r).
    split; [|done]. destruct r; simpl in *. by subst.
Qed.

Lemma elem_of_userPermissions_of u (P : collections.Permission.t) r :
  r ∈ userPermissions_of u P ↔
  pivot.UserPermissions.UserID r = u ∧
  pivot.UserPermissions.PermissionID r ∈ collections.Permission.IDs P.
Proof.
  rewrite userPermissions_of_map, list_elem_of_fmap. split.
  - intros (id & -> & Hid). done.
  - intros [Hu Hid]. exists (pivot.UserPermissions.PermissionID r).
    split; [|done]. destruct r; simpl in *. by subst.
Qed.

(** ** The transactions, case by case

    The outcome of a replace is decided by the first statement that fails, in
    the order begin, delete, insert, commit. *)

Lemma ReplaceRoles_eq b d c m ur up u R :
  ReplaceRoles b d c m (mk (mkDB ur up)) u R =
  match b, d, c, m with
  | Some e, _, _, _
  | None, Some e, _, _
  | None, None, Some e, _
  | None, None, None, Some e => (mk (mkDB ur up), Some e)
  | None, None, None, None =>
      (mk (mkDB (filter (λ r, ¬ pivot.UserRoles.UserID r = u) ur ∪
                 list_to_set (userRoles_of u R)) up), None)
  end.
Proof. destruct b, d, c, m; reflexivity. Qed.

Lemma ReplacePermissions_eq b d c m ur up u P :
  ReplacePermissions b d c m (mk (mkDB ur up)) u P =
  match b, d, c, m with
  | Some e, _, _, _
  | None, Some e, _, _
  | None, None, Some e, _
  | None, None, None, Some e => (mk (mkDB ur up), Some e)
  | None, None, None, None =>
      (mk (mkDB ur (filter (λ r, ¬ pivot.UserPermissions.UserID r = u) up ∪
                    list_to_set (userPermissions_of u P))), None)
  end.
Proof. destruct b, d, c, m; reflexivity. Qed.

(** ** Replace is all-or-nothing *)

(** A replace that reports an error, whichever statement failed, leaves the
    store as it was. *)
Lemma ReplaceRoles_failed_unchanged b d c m repository u R :
  (ReplaceRoles b d c m repository u R).2 ≠ None →
  (ReplaceRoles b d c m repository u R).1 = repository.
Proof.
  destruct repository as [[ur up]]. rewrite ReplaceRoles_eq.
  destruct b, d, c, m; simpl; congruence.
Qed.

Lemma ReplacePermissions_failed_unchanged b d c m repository u P :
  (ReplacePermissions b d c m repository u P).2 ≠ None →
  (ReplacePermissions b d c m repository u P).1 = repository.
Proof.
  destruct repository as [[ur up]]. rewrite ReplacePermissions_eq.
  destruct b, d, c, m; simpl; congruence.
Qed.

(** C1: when the insert step of [ReplacePermissions] fails after the delete
    step succeeded, the transaction rolls back: the call returns the insert
    error and the store is exactly the one before the call, so the user's
    permissions are the old ones and not the empty set.  The same holds for
    [ReplaceRoles]. *)
Theorem replace_insert_failure_rolls_back :
  ∀ (repository : UserRepository) (userID : UUID)
    (permissions : collections.Permission.t) (roles : collections.Role.t)
    (e : Error) (commit : option Error),
    ReplacePermissions None None (Some e) commit repository userID permissions
      = (repository, Some e) ∧
    ReplaceRoles None None (Some e) commit repository userID roles
      = (repository, Some e).
Proof.
  intros [[ur up]] u P R e m. split.
  - by rewrite ReplacePermissions_eq.
  - by rewrite ReplaceRoles_eq.
Qed.

(** The scenario of the specification: alice keeps her permission when the
    insert of a replacement fails. *)
Example replace_permissions_failure_scenario :
  let after :=
    (ReplacePermissions None None (Some (ErrStorage 1)) None
       sample_repository alice [write_posts]).1 in
  HasDirectPermission None after alice read_posts = (true, None) ∧
  HasDirectPermission None after alice write_posts = (false, None).
Proof. split; reflexivity. Qed.

(** ** Controls *)

(** C3: [HasAllRoles] on an empty collection answers true for every user and
    every store, also a user without any role: the count 0 equals the
    length 0. *)
Theorem has_all_roles_empty :
  ∀ (fault : option Error) (repository : UserRepository) (userID : UUID),
    HasAllRoles fault repository userID [] = (true, fault).
Proof.
  intros f repo u. unfold HasAllRoles, Count.
  destruct f as [e|]; simpl; [done|].
  replace (filter _ _) with (∅ : gset pivot.UserRoles.t); [done|].
  apply set_eq. intros r. rewrite elem_of_filter, elem_of_empty.
  split; [intros []|]. intros [[_ Hin] _]. by apply not_elem_of_nil in Hin.
Qed.

(** A count is positive exactly when some row matches. *)
Lemma count_gt_0_false `{Countable A} (X : gset A) :
  (Z.of_nat (size X) >? 0) = false ↔ ∀ x, x ∉ X.
Proof.
  rewrite Z.gtb_ltb, Z.ltb_ge. split.
  - intros Hle x Hx. assert (size X = 0%nat) as H0 by lia.
    apply size_empty_inv in H0. set_solver.
  - intros Hno. replace X with (∅ : gset A); [by rewrite size_empty|].
    apply set_eq. intros x. rewrite elem_of_empty. split; [intros []|]. apply Hno.
Qed.

Lemma count_gt_0_true `{Countable A} (X : gset A) :
  (Z.of_nat (size X) >? 0) = true ↔ ∃ x, x ∈ X.
Proof.
  split.
  - intros Hgt. destruct (set_choose_or_empty X) as [Hx|Hemp]; [done|].
    apply size_empty_iff in Hemp. rewrite Hemp in Hgt. discriminate.
  - intros [x Hx]. destruct (Z.of_nat (size X) >? 0) eqn:Hc; [done|].
    destruct (proj1 (count_gt_0_false X) Hc x Hx).
Qed.

(** The rows [HasAllRoles] and [HasAnyRoles] count are the pairs of the user
    with one of the given keys. *)
Lemma matching_roles_none (ur : gset pivot.UserRoles.t) u (ids : list N) :
  (∀ r, r ∉ filter (λ r, pivot.UserRoles.UserID r = u ∧
                         pivot.UserRoles.RoleID r ∈ ids) ur) ↔
  (∀ id, id ∈ ids → pivot.UserRoles.mk u id ∉ ur).
Proof.
  split.
  - intros Hno id Hid Hin. apply (Hno (pivot.UserRoles.mk u id)).
    apply elem_of_filter. done.
  - intros Hno [u' id]. rewrite elem_of_filter. simpl.
    intros [[-> Hid] Hin]. by apply (Hno id).
Qed.

(** C6: when the store answers the query, [HasAnyRoles] is false exactly
    when none of the given roles is associated with the user, and true
    exactly when a row (userID, roleID) with roleID among the given ones
    exists.  This holds for every collection, so for the non-empty ones. *)
Theorem has_any_roles_iff_intersection :
  ∀ (repository : UserRepository) (userID : UUID) (roles : collections.Role.t),
    let answer := HasAnyRoles None repository userID roles in
    answer.2 = None ∧
    (answer.1 = false ↔
       ∀ id, id ∈ collections.Role.IDs roles →
             pivot.UserRoles.mk userID id ∉ user_roles (Database repository)) ∧
    (answer.1 = true ↔
       ∃ id, id ∈ collections.Role.IDs roles ∧
             pivot.UserRoles.mk userID id ∈ user_roles (Database repository)).
Proof.
  intros repo u R. unfold HasAnyRoles, Count. simpl.
  split; [done|]. split.
  - by rewrite count_gt_0_false, matching_roles_none.
  - rewrite count_gt_0_true. split.
    + intros [[u' id] Hr]. apply elem_of_filter in Hr as [[Hu Hid] Hin].
      simpl in *. subst u'. by exists id.
    + intros (id & Hid & Hin). exists (pivot.UserRoles.mk u id).
      by apply elem_of_filter.
Qed.

Lemma has_any_roles_witness :
  (HasAnyRoles None sample_repository alice [editor; viewer]).1 = true ∧
  (HasAnyRoles None sample_repository bob [editor; viewer]).1 = false.
Proof.
  split.
  - apply (has_any_roles_iff_intersection sample_repository alice
             [editor; viewer]).
    exists 2%N. split; vm_compute; [set_solver|done].
  - apply (has_any_roles_iff_intersection sample_repository bob
             [editor; viewer]).
    intros id Hid. vm_compute in Hid.
    apply list_elem_of_In in Hid. simpl in Hid.
    destruct Hid as [<-|[<-|[]]]; vm_compute; intros Hin; discriminate Hin.
Defined.

(** C8: once [ClearRoles] has succeeded no role row of the user is left, and
    [HasAnyRoles] answers false for every collection (so for every non-empty
    one), whatever the store answers to the query. *)
Theorem clear_roles_then_has_any_roles :
  ∀ (fault : option Error) (repository : UserRepository) (userID : UUID),
    (ClearRoles fault repository userID).2 = None →
    let cleared := (ClearRoles fault repository userID).1 in
    (∀ r, r ∈ user_roles (Database cleared) →
          pivot.UserRoles.UserID r ≠ userID) ∧
    (∀ (query : option Error) (roles : collections.Role.t),
        HasAnyRoles query cleared userID roles = (false, query)).
Proof.
  intros f [[ur up]] u. destruct f as [e|]; [discriminate|]. intros _.
  simpl. split.
  - intros r Hr. by apply elem_of_filter in Hr as [Hne _].
  - intros q R. unfold HasAnyRoles, Count. destruct q as [e|]; [done|].
    simpl. f_equal. apply count_gt_0_false, matching_roles_none.
    intros id _ Hin. by apply elem_of_filter in Hin as [Hne _].
Qed.

Lemma clear_roles_then_has_any_roles_witness :
  (ClearRoles None sample_repository alice).2 = None ∧
  HasAnyRoles None (ClearRoles None sample_repository alice).1
              alice [admin; editor] = (false, None).
Proof.
  split; [reflexivity|].
  apply (clear_roles_then_has_any_roles None sample_repository alice).
  reflexivity.
Defined.

(** C9 as stated fails here: under a storage failure [HasAllRoles] on an
    empty collection answers true next to the error, since the count is left
    at zero, which equals the length of the collection. *)
Lemma has_all_roles_on_error_true :
  HasAllRoles (Some (ErrStorage 1)) sample_repository bob []
  = (true, Some (ErrStorage 1)).
Proof. reflexivity. Qed.

(** C9, amended: when the store fails a query, every control returns that
    error unchanged, computed from a count of zero: [HasRole],
    [HasAnyRoles], [HasDirectPermission] and [HasAnyDirectPermissions]
    answer false; [HasAllRoles] and [HasAllDirectPermissions] answer false
    for a non-empty collection and true for an empty one. *)
Theorem controls_on_storage_error :
  ∀ (e : Error) (repository : UserRepository) (userID : UUID),
    (∀ role, HasRole (Some e) repository userID role = (false, Some e)) ∧
    (∀ roles, HasAnyRoles (Some e) repository userID roles
              = (false, Some e)) ∧
    (∀ roles, HasAllRoles (Some e) repository userID roles
              = (match roles with [] => true | _ => false end, Some e)) ∧
    (∀ permission, HasDirectPermission (Some e) repository userID permission
                   = (false, Some e)) ∧
    (∀ permissions,
        HasAnyDirectPermissions (Some e) repository userID permissions
        = (false, Some e)) ∧
    (∀ permissions,
        HasAllDirectPermissions (Some e) repository userID permissions
        = (match permissions with [] => true | _ => false end, Some e)).
Proof.
  intros e repo u. repeat split; try done.
  - intros [|r R]; reflexivity.
  - intros [|p P]; reflexivity.
Qed.

(** ** Adding *)

(** What the conflict clause is for: without it the store rejects a row that
    is already there; with it the row is skipped. *)
Example create_conflict_clause :
  let t : gset pivot.UserRoles.t := {[ pivot.UserRoles.mk alice 1 ]} in
  Create false None t [pivot.UserRoles.mk alice 1]
    = (t, Some ErrDuplicatedKey) ∧
  Create true None t [pivot.UserRoles.mk alice 1] = (t, None).
Proof. split; reflexivity. Qed.

Lemma size_matching_after_add (t : gset pivot.UserRoles.t) u (ids : list N) :
  NoDup ids →
  size (filter (λ r, pivot.UserRoles.UserID r = u ∧
                     pivot.UserRoles.RoleID r ∈ ids)
               (t ∪ list_to_set (map (pivot.UserRoles.mk u) ids)))
  = length ids.
Proof.
  intros Hnd.
  replace (filter _ _)
    with (list_to_set (map (pivot.UserRoles.mk u) ids)
          : gset pivot.UserRoles.t).
  - rewrite size_list_to_set, length_map; [done|].
    apply NoDup_fmap_2; [|done]. intros x y Heq. by injection Heq.
  - apply set_eq. intros [u' id].
    rewrite elem_of_filter, elem_of_union, elem_of_list_to_set,
      list_elem_of_fmap. simpl. split.
    + intros (x & Heq & Hx). injection Heq as -> ->. split; [done|].
      right. by exists x.
    + intros [[-> Hid] _]. by exists id.
Qed.

(** C4 as stated fails here: for a collection holding the same role twice
    the insert absorbs the duplicate, one row matches, and the collection
    has length two. *)
Lemma add_roles_duplicate_then_has_all_roles_false :
  (AddRoles None empty_repository alice [admin; admin]).2 = None ∧
  HasAllRoles None (AddRoles None empty_repository alice [admin; admin]).1
              alice [admin; admin] = (false, None).
Proof. split; reflexivity. Qed.

(** C4, amended: for a collection whose role IDs are pairwise distinct, a
    successful [AddRoles] followed immediately by [HasAllRoles] on the same
    collection, answered by the store, returns true. *)
Theorem add_roles_then_has_all_roles :
  ∀ (fault : option Error) (repository : UserRepository) (userID : UUID)
    (roles : collections.Role.t),
    NoDup (collections.Role.IDs roles) →
    (AddRoles fault repository userID roles).2 = None →
    HasAllRoles None (AddRoles fault repository userID roles).1 userID roles
    = (true, None).
Proof.
  intros f [[ur up]] u R Hnd. destruct f as [e|]; [discriminate|]. intros _.
  unfold HasAllRoles, AddRoles, Count. simpl. f_equal.
  rewrite userRoles_of_map, size_matching_after_add by done.
  unfold collections.Role.Len, collections.Role.IDs.
  rewrite length_map. apply Z.eqb_refl.
Qed.

Lemma add_roles_then_has_all_roles_witness :
  NoDup (collections.Role.IDs [admin; viewer]) ∧
  (AddRoles None sample_repository bob [admin; viewer]).2 = None ∧
  HasAllRoles None (AddRoles None sample_repository bob [admin; viewer]).1
              bob [admin; viewer] = (true, None).
Proof.
  assert (NoDup (collections.Role.IDs [admin; viewer])) as Hnd.
  { apply (bool_decide_unpack _). vm_compute. exact I. }
  split; [exact Hnd|]. split; [reflexivity|].
  apply (add_roles_then_has_all_roles None sample_repository bob
           [admin; viewer] Hnd).
  reflexivity.
Defined.

(** C5: [AddRoles] is idempotent.  Twice in a row gives what once gives;
    after a successful call a second one changes nothing, whatever the
    store answers; and when every pair is already present the call is a
    no-op whose only possible error is the failure of the store itself,
    never the conflict. *)
Theorem add_roles_idempotent :
  ∀ (repository : UserRepository) (userID : UUID)
    (roles : collections.Role.t),
    AddRoles None (AddRoles None repository userID roles).1 userID roles
      = AddRoles None repository userID roles ∧
    (∀ first second : option Error,
        (AddRoles first repository userID roles).2 = None →
        (AddRoles second (AddRoles first repository userID roles).1
                  userID roles).1
        = (AddRoles first repository userID roles).1) ∧
    ((∀ id, id ∈ collections.Role.IDs roles →
            pivot.UserRoles.mk userID id ∈ user_roles (Database repository)) →
     ∀ fault : option Error,
       AddRoles fault repository userID roles = (repository, fault)).
Proof.
  intros [[ur up]] u R.
  assert (∀ s : gset pivot.UserRoles.t, ur ∪ s ∪ s = ur ∪ s) as Hidem.
  { intros s. by rewrite <- (assoc_L (∪)), (idemp_L (∪)). }
  split; [|split].
  - unfold AddRoles. simpl. by rewrite Hidem.
  - intros [e|] f2; [discriminate|]. intros _.
    unfold AddRoles. destruct f2 as [e|]; simpl; [done|]. by rewrite Hidem.
  - intros Hin [e|]; [done|]. unfold AddRoles. simpl.
    do 3 f_equal. apply set_eq. intros r.
    rewrite elem_of_union, elem_of_list_to_set, elem_of_userRoles_of.
    split; [|by left]. intros [Hr|[Hu Hid]]; [done|].
    destruct r as [u' id]; simpl in *. subst u'. by apply Hin.
Qed.

Lemma add_roles_idempotent_witness :
  AddRoles None sample_repository alice [admin; editor; admin]
  = (sample_repository, None).
Proof.
  apply (add_roles_idempotent sample_repository alice [admin; editor; admin]).
  intros id Hid. apply list_elem_of_In in Hid. simpl in Hid.
  destruct Hid as [<-|[<-|[<-|[]]]];
    apply (bool_decide_unpack _); vm_compute; exact I.
Defined.

(** ** Replacing *)

(** C2: after [ReplaceRoles] with R1 and then with R2, both successful, the
    roles of the user are exactly those of R2, and no role of R1 outside R2
    is left. *)
Theorem replace_roles_twice :
  ∀ (repository : UserRepository) (userID : UUID)
    (R1 R2 : collections.Role.t)
    (b1 d1 c1 m1 b2 d2 c2 m2 : option Error),
    let first := ReplaceRoles b1 d1 c1 m1 repository userID R1 in
    let second := ReplaceRoles b2 d2 c2 m2 first.1 userID R2 in
    first.2 = None →
    second.2 = None →
    (∀ id, pivot.UserRoles.mk userID id ∈ user_roles (Database second.1) ↔
           id ∈ collections.Role.IDs R2) ∧
    (∀ id, id ∈ collections.Role.IDs R1 →
           id ∉ collections.Role.IDs R2 →
           pivot.UserRoles.mk userID id ∉ user_roles (Database second.1)).
Proof.
  intros [[ur up]] u R1 R2 b1 d1 c1 m1 b2 d2 c2 m2. simpl.
  rewrite ReplaceRoles_eq.
  destruct b1, d1, c1, m1; try discriminate. intros _. simpl.
  rewrite ReplaceRoles_eq.
  destruct b2, d2, c2, m2; try discriminate. intros _. simpl.
  assert (∀ id, pivot.UserRoles.mk u id ∈
                  filter (λ r, ¬ pivot.UserRoles.UserID r = u)
                         (filter (λ r, ¬ pivot.UserRoles.UserID r = u) ur ∪
                          list_to_set (userRoles_of u R1)) ∪
                  list_to_set (userRoles_of u R2)
                ↔ id ∈ collections.Role.IDs R2) as Hrows.
  { intros id.
    rewrite elem_of_union, elem_of_filter, elem_of_list_to_set,
      elem_of_userRoles_of. simpl. split.
    - intros [[Hne _]|[_ Hid]]; [by destruct Hne|done].
    - intros Hid. by right. }
  split; [done|]. intros id _ Hout Hin. by apply Hout, Hrows.
Qed.

Lemma replace_roles_twice_witness :
  let first :=
    ReplaceRoles None None None None sample_repository alice [admin; editor] in
  let second :=
    ReplaceRoles None None None None first.1 alice [editor; viewer] in
  first.2 = None ∧ second.2 = None ∧
  pivot.UserRoles.mk alice 3 ∈ user_roles (Database second.1) ∧
  pivot.UserRoles.mk alice 1 ∉ user_roles (Database second.1).
Proof.
  destruct (replace_roles_twice sample_repository alice
              [admin; editor] [editor; viewer]
              None None None None None None None None
              eq_refl eq_refl) as [Hexact Hgone].
  split; [reflexivity|]. split; [reflexivity|]. split.
  - apply Hexact. apply (bool_decide_unpack _). vm_compute. exact I.
  - apply Hgone; apply (bool_decide_unpack _); vm_compute; exact I.
Defined.

(** ** Removing *)

(** C7: [RemoveRoles] returns exactly the answer of the store; when the
    store accepts the delete, the rows that go are exactly the pairs of the
    user with a role of the collection, every other row of [user_roles]
    stays and [user_permissions] is untouched; removing pairs none of which
    is present changes nothing and is no error. *)
Theorem remove_roles_exact :
  ∀ (fault : option Error) (repository : UserRepository) (userID : UUID)
    (roles : collections.Role.t),
    let result := RemoveRoles fault repository userID roles in
    result.2 = fault ∧
    (fault = None →
     ∀ r, r ∈ user_roles (Database result.1) ↔
          r ∈ user_roles (Database repository) ∧
          ¬ (pivot.UserRoles.UserID r = userID ∧
             pivot.UserRoles.RoleID r ∈ collections.Role.IDs roles)) ∧
    user_permissions (Database result.1)
      = user_permissions (Database repository) ∧
    ((∀ id, id ∈ collections.Role.IDs roles →
            pivot.UserRoles.mk userID id ∉ user_roles (Database repository)) →
     result.1 = repository).
Proof.
  intros f [[ur up]] u R. unfold RemoveRoles.
  destruct f as [e|]; simpl; [by repeat split|].
  split; [done|]. split; [|split; [done|]].
  - intros _ r.
    by rewrite elem_of_difference, elem_of_list_to_set, elem_of_userRoles_of.
  - intros Habsent. do 2 f_equal. apply set_eq. intros r.
    rewrite elem_of_difference, elem_of_list_to_set, elem_of_userRoles_of.
    split; [by intros [Hin _]|]. intros Hin. split; [done|].
    intros [Hu Hid]. destruct r as [u' id]; simpl in *. subst u'.
    by apply (Habsent id).
Qed.

Lemma remove_roles_exact_witness :
  (RemoveRoles None sample_repository bob [editor; viewer]).1
  = sample_repository.
Proof.
  apply (remove_roles_exact None sample_repository bob [editor; viewer]).
  intros id Hid. apply list_elem_of_In in Hid. simpl in Hid.
  destruct Hid as [<-|[<-|[]]];
    apply (bool_decide_unpack _); vm_compute; exact I.
Defined.

(** The scenario of the specification: a user with roles 1 and 2 loses
    role 2. *)
Example remove_roles_scenario :
  let after := (RemoveRoles None sample_repository alice [editor]).1 in
  HasAllRoles None after alice [admin; editor] = (false, None) ∧
  HasRole None after alice admin = (true, None) ∧
  HasRole None after alice editor = (false, None).
Proof. repeat split; reflexivity. Qed.

(** ** Frame *)

(** C10: whatever action is called for a user and whatever the store
    answers, the rows of every other user are the same before and after, in
    both tables, and the table the action is not about is the same as a
    whole. *)
Theorem actions_frame :
  ∀ (a : Action) (repository : UserRepository) (userID : UUID),
    let after := (call a repository userID).1 in
    (∀ r, pivot.UserRoles.UserID r ≠ userID →
          (r ∈ user_roles (Database after) ↔
           r ∈ user_roles (Database repository))) ∧
    (∀ r, pivot.UserPermissions.UserID r ≠ userID →
          (r ∈ user_permissions (Database after) ↔
           r ∈ user_permissions (Database repository))) ∧
    (if about_roles a
     then user_permissions (Database after)
          = user_permissions (Database repository)
     else user_roles (Database after) = user_roles (Database repository)).
Proof.
  intros a [[ur up]] u.
  destruct a as [f P|b d c m P|f P|f|f R|b d c m R|f R|f]; simpl;
    try rewrite ReplacePermissions_eq; try rewrite ReplaceRoles_eq;
    unfold AddPermissions, RemovePermissions, ClearPermissions,
      AddRoles, RemoveRoles, ClearRoles;
    try (destruct f as [e|]; simpl; [by repeat split|]);
    try (destruct b as [e|], d as [e'|], c as [e''|], m as [e'''|];
         simpl; try by repeat split);
    (split; [|split; [|done]]); try done; intros r Hne;
    rewrite ?elem_of_union, ?elem_of_difference, ?elem_of_filter,
      ?elem_of_list_to_set, ?elem_of_userRoles_of,
      ?elem_of_userPermissions_of;
    tauto.
Qed.

Lemma actions_frame_witness :
  pivot.UserRoles.mk bob 1 ∈
    user_roles (Database (call (CallClearRoles None) sample_repository alice).1)
  ↔ pivot.UserRoles.mk bob 1 ∈ user_roles (Database sample_repository).
Proof.
  apply (actions_frame (CallClearRoles None) sample_repository alice).
  vm_compute. discriminate.
Defined.

(** * Further properties of the repository *)

(** ** Counting rows by key *)

Lemma size_list_to_set_le `{Countable A} (l : list A) :
  (size (list_to_set l : gset A) ≤ length l)%nat.
Proof.
  induction l as [|x l IH].
  - by rewrite list_to_set_nil, size_empty.
  - rewrite list_to_set_cons, length_cons.
    destruct (decide (x ∈ (list_to_set l : gset A))) as [Hin|Hout].
    + rewrite (subseteq_union_1_L {[x]} (list_to_set l)); [lia|].
      by apply singleton_subseteq_l.
    + rewrite size_union, size_singleton; [lia|].
      by apply disjoint_singleton_l.
Qed.

Lemma size_list_to_set_NoDup `{Countable A} (l : list A) :
  size (list_to_set l : gset A) = length l → NoDup l.
Proof.
  induction l as [|x l IH]; [constructor|].
  rewrite list_to_set_cons, length_cons. intros Hsize.
  pose proof (size_list_to_set_le l) as Hle.
  destruct (decide (x ∈ l)) as [Hin|Hout].
  - rewrite (subseteq_union_1_L {[x]} (list_to_set l)) in Hsize; [lia|].
    by apply singleton_subseteq_l, elem_of_list_to_set.
  - constructor; [done|]. apply IH.
    rewrite size_union, size_singleton in Hsize; [lia|].
    apply disjoint_singleton_l. by rewrite elem_of_list_to_set.
Qed.

(** The rows matching "the key is one of [ids]" are as many as [ids] is
    long exactly when [ids] has no repetition and every key has its row. *)
Lemma size_filter_keys `{Countable R} (row : N → R) (t : gset R)
      (P : R → Prop) `{∀ r, Decision (P r)} (ids : list N) :
  Inj (=) (=) row →
  (∀ r, P r ↔ ∃ id, id ∈ ids ∧ r = row id) →
  size (filter P t) = length ids ↔
  NoDup ids ∧ ∀ id, id ∈ ids → row id ∈ t.
Proof.
  intros Hinj HP.
  set (S := list_to_set (row <$> ids) : gset R).
  assert (filter P t ⊆ S) as Hsub.
  { intros r Hr. apply elem_of_filter in Hr as [Hr _].
    apply HP in Hr as (id & Hid & ->).
    apply elem_of_list_to_set, list_elem_of_fmap. by exists id. }
  pose proof (size_list_to_set_le (row <$> ids)) as Hle.
  rewrite length_fmap in Hle. fold S in Hle.
  pose proof (subseteq_size _ _ Hsub) as Hle'.
  split.
  - intros Hsize. split.
    + apply (NoDup_fmap_1 row), size_list_to_set_NoDup.
      rewrite length_fmap. change (size S = length ids). lia.
    + intros id Hid.
      assert (size S ≤ size (filter P t))%nat as Hge by lia.
      pose proof (set_subseteq_size_eq _ _ Hsub Hge) as Heq.
      assert (row id ∈ S) as HS.
      { apply elem_of_list_to_set, list_elem_of_fmap. by exists id. }
      rewrite <- Heq in HS. by apply elem_of_filter in HS as [_ ?].
  - intros [Hnd Hall].
    replace (filter P t) with S.
    + unfold S. rewrite size_list_to_set, length_fmap; [done|].
      by apply NoDup_fmap_2.
    + apply set_eq. intros r. split; [|apply Hsub].
      intros Hr. apply elem_of_list_to_set, list_elem_of_fmap in Hr
        as (id & -> & Hid).
      apply elem_of_filter. split; [|by apply Hall].
      apply HP. by exists id.
Qed.

Lemma role_row_inj u : Inj (=) (=) (pivot.UserRoles.mk u).
Proof. intros x y Heq. by injection Heq. Qed.

Lemma permission_row_inj u : Inj (=) (=) (pivot.UserPermissions.mk u).
Proof. intros x y Heq. by injection Heq. Qed.

Lemma role_cond_keys u (ids : list N) (r : pivot.UserRoles.t) :
  (pivot.UserRoles.UserID r = u ∧ pivot.UserRoles.RoleID r ∈ ids) ↔
  ∃ id, id ∈ ids ∧ r = pivot.UserRoles.mk u id.
Proof.
  destruct r as [u' id']; simpl. split.
  - intros [-> Hid]. by exists id'.
  - intros (id & Hid & Heq). injection Heq as -> ->. done.
Qed.

Lemma permission_cond_keys u (ids : list N) (r : pivot.UserPermissions.t) :
  (pivot.UserPermissions.UserID r = u ∧
   pivot.UserPermissions.PermissionID r ∈ ids) ↔
  ∃ id, id ∈ ids ∧ r = pivot.UserPermissions.mk u id.
Proof.
  destruct r as [u' id']; simpl. split.
  - intros [-> Hid]. by exists id'.
  - intros (id & Hid & Heq). injection Heq as -> ->. done.
Qed.

Lemma matching_permissions_none (up : gset pivot.UserPermissions.t) u
      (ids : list N) :
  (∀ r, r ∉ filter (λ r, pivot.UserPermissions.UserID r = u ∧
                         pivot.UserPermissions.PermissionID r ∈ ids) up) ↔
  (∀ id, id ∈ ids → pivot.UserPermissions.mk u id ∉ up).
Proof.
  split.
  - intros Hno id Hid Hin. apply (Hno (pivot.UserPermissions.mk u id)).
    apply elem_of_filter. done.
  - intros Hno [u' id]. rewrite elem_of_filter. simpl.
    intros [[-> Hid] Hin]. by apply (Hno id).
Qed.

(** ** What the controls answer *)

(** X1: when the store answers the count, [HasRole] is true exactly when
    the row (userID, role.ID) is in [user_roles]. *)
Theorem has_role_iff_row :
  ∀ (repository : UserRepository) (userID : UUID) (role : models.Role.t),
    (HasRole None repository userID role).2 = None ∧
    ((HasRole None repository userID role).1 = true ↔
     pivot.UserRoles.mk userID (models.Role.ID role)
       ∈ user_roles (Database repository)).
Proof.
  intros repo u role. unfold HasRole, Count. simpl. split; [done|].
  rewrite count_gt_0_true. split.
  - intros [[u' id] Hr]. apply elem_of_filter in Hr as [[Hu Hid] Hin].
    simpl in *. by subst.
  - intros Hin. exists (pivot.UserRoles.mk u (models.Role.ID role)).
    by apply elem_of_filter.
Qed.

(** X2: when the store answers the count, [HasDirectPermission] is true
    exactly when the row (userID, permission.ID) is in [user_permissions];
    the roles of the user play no part. *)
Theorem has_direct_permission_iff_row :
  ∀ (repository : UserRepository) (userID : UUID)
    (permission : models.Permission.t),
    (HasDirectPermission None repository userID permission).2 = None ∧
    ((HasDirectPermission None repository userID permission).1 = true ↔
     pivot.UserPermissions.mk userID (models.Permission.ID permission)
       ∈ user_permissions (Database repository)).
Proof.
  intros repo u p. unfold HasDirectPermission, Count. simpl. split; [done|].
  rewrite count_gt_0_true. split.
  - intros [[u' id] Hr]. apply elem_of_filter in Hr as [[Hu Hid] Hin].
    simpl in *. by subst.
  - intros Hin.
    exists (pivot.UserPermissions.mk u (models.Permission.ID p)).
    by apply elem_of_filter.
Qed.

(** X3: when the store answers the count, [HasAllRoles] is true exactly
    when the collection repeats no role ID and every one of its roles is
    associated with the user.  A collection that repeats an ID is therefore
    never fully held, whatever the user's roles. *)
Theorem has_all_roles_iff :
  ∀ (repository : UserRepository) (userID : UUID) (roles : collections.Role.t),
    (HasAllRoles None repository userID roles).2 = None ∧
    ((HasAllRoles None repository userID roles).1 = true ↔
     NoDup (collections.Role.IDs roles) ∧
     ∀ id, id ∈ collections.Role.IDs roles →
           pivot.UserRoles.mk userID id ∈ user_roles (Database repository)).
Proof.
  intros repo u R. unfold HasAllRoles, Count. simpl. split; [done|].
  rewrite <- (size_filter_keys (pivot.UserRoles.mk u)
                (user_roles (Database repo)) _ (collections.Role.IDs R)
                (role_row_inj u) (role_cond_keys u _)).
  unfold collections.Role.Len, collections.Role.IDs.
  rewrite length_map, Z.eqb_eq. lia.
Qed.

(** X4: when the store answers the count, [HasAllDirectPermissions] is true
    exactly when the collection repeats no permission ID and every one of
    its permissions is attached to the user. *)
Theorem has_all_direct_permissions_iff :
  ∀ (repository : UserRepository) (userID : UUID)
    (permissions : collections.Permission.t),
    (HasAllDirectPermissions None repository userID permissions).2 = None ∧
    ((HasAllDirectPermissions None repository userID permissions).1 = true ↔
     NoDup (collections.Permission.IDs permissions) ∧
     ∀ id, id ∈ collections.Permission.IDs permissions →
           pivot.UserPermissions.mk userID id
             ∈ user_permissions (Database repository)).
Proof.
  intros repo u P. unfold HasAllDirectPermissions, Count. simpl.
  split; [done|].
  rewrite <- (size_filter_keys (pivot.UserPermissions.mk u)
                (user_permissions (Database repo)) _
                (collections.Permission.IDs P)
                (permission_row_inj u) (permission_cond_keys u _)).
  unfold collections.Permission.Len, collections.Permission.IDs.
  rewrite length_map, Z.eqb_eq. lia.
Qed.

(** X5: when the store answers the count, [HasAnyDirectPermissions] is true
    exactly when a row (userID, id) with id among the given permissions
    exists; on the empty collection it is false. *)
Theorem has_any_direct_permissions_iff :
  ∀ (repository : UserRepository) (userID : UUID)
    (permissions : collections.Permission.t),
    (HasAnyDirectPermissions None repository userID permissions).2 = None ∧
    ((HasAnyDirectPermissions None repository userID permissions).1 = true ↔
     ∃ id, id ∈ collections.Permission.IDs permissions ∧
           pivot.UserPermissions.mk userID id
             ∈ user_permissions (Database repository)) ∧
    (HasAnyDirectPermissions None repository userID []).1 = false.
Proof.
  intros repo u P. unfold HasAnyDirectPermissions, Count. simpl.
  split; [done|]. split.
  - rewrite count_gt_0_true. split.
    + intros [[u' id] Hr]. apply elem_of_filter in Hr as [[Hu Hid] Hin].
      simpl in *. subst u'. by exists id.
    + intros (id & Hid & Hin). exists (pivot.UserPermissions.mk u id).
      by apply elem_of_filter.
  - apply count_gt_0_false, matching_permissions_none.
    intros id Hid. by apply not_elem_of_nil in Hid.
Qed.

(** ** Replace, statement by statement *)

(** X6: a replace that succeeded gives exactly the store that clearing the
    user and then adding the collection gives, for roles and for direct
    permissions. *)
Theorem replace_is_clear_then_add :
  ∀ (b d c m : option Error) (repository : UserRepository) (userID : UUID)
    (roles : collections.Role.t) (permissions : collections.Permission.t),
    ((ReplaceRoles b d c m repository userID roles).2 = None →
     (ReplaceRoles b d c m repository userID roles).1
     = (AddRoles None (ClearRoles None repository userID).1
                 userID roles).1) ∧
    ((ReplacePermissions b d c m repository userID permissions).2 = None →
     (ReplacePermissions b d c m repository userID permissions).1
     = (AddPermissions None (ClearPermissions None repository userID).1
                       userID permissions).1).
Proof.
  intros b d c m [[ur up]] u R P.
  rewrite ReplaceRoles_eq, ReplacePermissions_eq.
  destruct b, d, c, m; simpl; split; intros Herr;
    try discriminate Herr; reflexivity.
Qed.

Lemma replace_is_clear_then_add_witness :
  (ReplaceRoles None None None None sample_repository alice [viewer]).2
    = None ∧
  (ReplaceRoles None None None None sample_repository alice [viewer]).1
  = (AddRoles None (ClearRoles None sample_repository alice).1
              alice [viewer]).1.
Proof.
  split; [reflexivity|].
  apply (replace_is_clear_then_add None None None None sample_repository
           alice [viewer] []).
  reflexivity.
Defined.

(** X7: after one successful [ReplacePermissions] the direct permissions of
    the user are exactly those of the collection, whatever they were before,
    and the permissions of every other user are as before. *)
Theorem replace_permissions_exact :
  ∀ (b d c m : option Error) (repository : UserRepository) (userID : UUID)
    (permissions : collections.Permission.t),
    (ReplacePermissions b d c m repository userID permissions).2 = None →
    ∀ r,
      r ∈ user_permissions
            (Database
               (ReplacePermissions b d c m repository userID permissions).1)
      ↔ if decide (pivot.UserPermissions.UserID r = userID)
        then pivot.UserPermissions.PermissionID r
               ∈ collections.Permission.IDs permissions
        else r ∈ user_permissions (Database repository).
Proof.
  intros b d c m [[ur up]] u P. rewrite ReplacePermissions_eq.
  destruct b, d, c, m; try discriminate. intros _ r. simpl.
  rewrite elem_of_union, elem_of_filter, elem_of_list_to_set,
    elem_of_userPermissions_of.
  destruct (decide (pivot.UserPermissions.UserID r = u)); tauto.
Qed.

Lemma replace_permissions_exact_witness :
  (ReplacePermissions None None None None sample_repository alice
     [write_posts]).2 = None ∧
  pivot.UserPermissions.mk alice 10 ∉
    user_permissions
      (Database
         (ReplacePermissions None None None None sample_repository alice
            [write_posts]).1).
Proof.
  split; [reflexivity|]. intros Hin.
  apply (replace_permissions_exact None None None None sample_repository
           alice [write_posts] eq_refl) in Hin.
  vm_compute in Hin. apply list_elem_of_In in Hin.
  destruct Hin as [Heq|[]]. discriminate Heq.
Defined.

(** X8: after one successful [ReplaceRoles] the roles of the user are
    exactly those of the collection, whatever they were before, and the
    roles of every other user are as before. *)
Theorem replace_roles_exact :
  ∀ (b d c m : option Error) (repository : UserRepository) (userID : UUID)
    (roles : collections.Role.t),
    (ReplaceRoles b d c m repository userID roles).2 = None →
    ∀ r,
      r ∈ user_roles
            (Database (ReplaceRoles b d c m repository userID roles).1)
      ↔ if decide (pivot.UserRoles.UserID r = userID)
        then pivot.UserRoles.RoleID r ∈ collections.Role.IDs roles
        else r ∈ user_roles (Database repository).
Proof.
  intros b d c m [[ur up]] u R. rewrite ReplaceRoles_eq.
  destruct b, d, c, m; try discriminate. intros _ r. simpl.
  rewrite elem_of_union, elem_of_filter, elem_of_list_to_set,
    elem_of_userRoles_of.
  destruct (decide (pivot.UserRoles.UserID r = u)); tauto.
Qed.

Lemma replace_roles_exact_witness :
  (ReplaceRoles None None None None sample_repository alice [viewer]).2
    = None ∧
  pivot.UserRoles.mk bob 1 ∈
    user_roles
      (Database
         (ReplaceRoles None None None None sample_repository alice
            [viewer]).1).
Proof.
  split; [reflexivity|].
  apply (replace_roles_exact None None None None sample_repository
           alice [viewer] eq_refl).
  apply (bool_decide_unpack _). vm_compute. exact I.
Defined.

(** X9: the error of a replace is the error of the first statement that
    failed, in the order begin, delete, insert, commit, and the store is
    then the one before the call.  A failed commit undoes the delete and the
    insert as well. *)
Theorem replace_first_error :
  ∀ (b d c m : option Error) (repository : UserRepository) (userID : UUID)
    (roles : collections.Role.t) (permissions : collections.Permission.t),
    let first_error :=
      match b with
      | Some e => Some e
      | None => match d with
                | Some e => Some e
                | None => match c with Some e => Some e | None => m end
                end
      end in
    (ReplaceRoles b d c m repository userID roles).2 = first_error ∧
    (ReplacePermissions b d c m repository userID permissions).2
      = first_error ∧
    (first_error ≠ None →
     (ReplaceRoles b d c m repository userID roles).1 = repository ∧
     (ReplacePermissions b d c m repository userID permissions).1
       = repository).
Proof.
  intros b d c m [[ur up]] u R P.
  rewrite ReplaceRoles_eq, ReplacePermissions_eq.
  destruct b, d, c, m; simpl; repeat split; congruence.
Qed.

Lemma replace_first_error_witness :
  ReplaceRoles None None None (Some (ErrStorage 5)) sample_repository alice
               [viewer]
  = (sample_repository, Some (ErrStorage 5)).
Proof.
  pose proof (replace_first_error None None None (Some (ErrStorage 5))
                sample_repository alice [viewer] []) as (He & _ & Hsame).
  destruct Hsame as [Hrepo _]; [discriminate|].
  rewrite (surjective_pairing (ReplaceRoles _ _ _ _ _ _ _)).
  by rewrite He, Hrepo.
Defined.

(** ** A failed action *)

(** X10: whichever of the eight actions is called and whichever statement
    the store fails, an action that returns an error leaves both tables
    exactly as they were. *)
Theorem failed_action_changes_nothing :
  ∀ (a : Action) (repository : UserRepository) (userID : UUID),
    (call a repository userID).2 ≠ None →
    (call a repository userID).1 = repository.
Proof.
  intros a [[ur up]] u.
  destruct a as [f P|b d c m P|f P|f|f R|b d c m R|f R|f]; simpl.
  2: { rewrite ReplacePermissions_eq. destruct b, d, c, m; simpl; congruence. }
  5: { rewrite ReplaceRoles_eq. destruct b, d, c, m; simpl; congruence. }
  all: unfold AddPermissions, RemovePermissions, ClearPermissions,
         AddRoles, RemoveRoles, ClearRoles;
       destruct f; simpl; congruence.
Qed.

Lemma failed_action_changes_nothing_witness :
  (call (CallRemoveRoles (Some ErrTxDone) [admin]) sample_repository alice).2
    ≠ None ∧
  (call (CallRemoveRoles (Some ErrTxDone) [admin]) sample_repository alice).1
  = sample_repository.
Proof.
  assert ((call (CallRemoveRoles (Some ErrTxDone) [admin])
                sample_repository alice).2 ≠ None) as Herr
    by discriminate.
  split; [exact Herr|].
  exact (failed_action_changes_nothing _ _ _ Herr).
Defined.

(** ** Adding, again *)

(** X11: [AddPermissions] is idempotent: twice in a row gives what once
    gives, and when every pair is already there the call changes nothing and
    returns only what the store answered; the conflict is no error. *)
Theorem add_permissions_idempotent :
  ∀ (repository : UserRepository) (userID : UUID)
    (permissions : collections.Permission.t),
    AddPermissions None (AddPermissions None repository userID permissions).1
                   userID permissions
      = AddPermissions None repository userID permissions ∧
    ((∀ id, id ∈ collections.Permission.IDs permissions →
            pivot.UserPermissions.mk userID id
              ∈ user_permissions (Database repository)) →
     ∀ fault : option Error,
       AddPermissions fault repository userID permissions
       = (repository, fault)).
Proof.
  intros [[ur up]] u P. split.
  - unfold AddPermissions. simpl.
    by rewrite <- (assoc_L (∪)), (idemp_L (∪)).
  - intros Hin [e|]; [done|]. unfold AddPermissions. simpl.
    do 3 f_equal. apply set_eq. intros r.
    rewrite elem_of_union, elem_of_list_to_set, elem_of_userPermissions_of.
    split; [|by left]. intros [Hr|[Hu Hid]]; [done|].
    destruct r as [u' id]; simpl in *. subst u'. by apply Hin.
Qed.

Lemma add_permissions_idempotent_witness :
  AddPermissions None sample_repository alice [read_posts; read_posts]
  = (sample_repository, None).
Proof.
  apply (add_permissions_idempotent sample_repository alice
           [read_posts; read_posts]).
  intros id Hid. apply list_elem_of_In in Hid. simpl in Hid.
  destruct Hid as [<-|[<-|[]]];
    apply (bool_decide_unpack _); vm_compute; exact I.
Defined.

(** X12: after a successful [AddRoles], [HasRole] is true for every role of
    the collection and [HasAnyRoles] is true for the collection unless it is
    empty; repeated IDs in the collection do not matter here. *)
Theorem add_roles_then_has_role :
  ∀ (fault : option Error) (repository : UserRepository) (userID : UUID)
    (roles : collections.Role.t),
    (AddRoles fault repository userID roles).2 = None →
    (∀ role, role ∈ roles →
             HasRole None (AddRoles fault repository userID roles).1
                     userID role = (true, None)) ∧
    (roles ≠ [] →
     HasAnyRoles None (AddRoles fault repository userID roles).1
                 userID roles = (true, None)).
Proof.
  intros f [[ur up]] u R. destruct f as [e|]; [discriminate|]. intros _.
  assert (∀ role, role ∈ R →
            pivot.UserRoles.mk u (models.Role.ID role)
              ∈ ur ∪ list_to_set (userRoles_of u R)) as Hrow.
  { intros role Hrole. apply elem_of_union. right.
    apply elem_of_list_to_set, elem_of_userRoles_of. split; [done|].
    simpl. by apply list_elem_of_fmap_2. }
  split.
  - intros role Hrole. unfold HasRole, AddRoles, Count. simpl. f_equal.
    apply count_gt_0_true.
    exists (pivot.UserRoles.mk u (models.Role.ID role)).
    apply elem_of_filter. split; [done|]. by apply Hrow.
  - intros Hne. destruct R as [|role R]; [done|].
    unfold HasAnyRoles, AddRoles, Count. simpl. f_equal.
    apply count_gt_0_true.
    exists (pivot.UserRoles.mk u (models.Role.ID role)).
    apply elem_of_filter. split.
    + split; [done|]. simpl. apply list_elem_of_here.
    + apply (Hrow role), list_elem_of_here.
Qed.

Lemma add_roles_then_has_role_witness :
  (AddRoles None sample_repository bob [viewer; viewer]).2 = None ∧
  HasAnyRoles None (AddRoles None sample_repository bob [viewer; viewer]).1
              bob [viewer; viewer] = (true, None).
Proof.
  split; [reflexivity|].
  destruct (add_roles_then_has_role None sample_repository bob
              [viewer; viewer] eq_refl) as [_ Hany].
  apply Hany. discriminate.
Defined.

(** X13: after a successful [AddPermissions], [HasDirectPermission] is true
    for every permission of the collection and [HasAnyDirectPermissions] is
    true for the collection unless it is empty. *)
Theorem add_permissions_then_has_direct_permission :
  ∀ (fault : option Error) (repository : UserRepository) (userID : UUID)
    (permissions : collections.Permission.t),
    (AddPermissions fault repository userID permissions).2 = None →
    (∀ permission, permission ∈ permissions →
       HasDirectPermission None
         (AddPermissions fault repository userID permissions).1
         userID permission = (true, None)) ∧
    (permissions ≠ [] →
     HasAnyDirectPermissions None
       (AddPermissions fault repository userID permissions).1
       userID permissions = (true, None)).
Proof.
  intros f [[ur up]] u P. destruct f as [e|]; [discriminate|]. intros _.
  assert (∀ p, p ∈ P →
            pivot.UserPermissions.mk u (models.Permission.ID p)
              ∈ up ∪ list_to_set (userPermissions_of u P)) as Hrow.
  { intros p Hp. apply elem_of_union. right.
    apply elem_of_list_to_set, elem_of_userPermissions_of. split; [done|].
    simpl. by apply list_elem_of_fmap_2. }
  split.
  - intros p Hp. unfold HasDirectPermission, AddPermissions, Count. simpl.
    f_equal. apply count_gt_0_true.
    exists (pivot.UserPermissions.mk u (models.Permission.ID p)).
    apply elem_of_filter. split; [done|]. by apply Hrow.
  - intros Hne. destruct P as [|p P]; [done|].
    unfold HasAnyDirectPermissions, AddPermissions, Count. simpl. f_equal.
    apply count_gt_0_true.
    exists (pivot.UserPermissions.mk u (models.Permission.ID p)).
    apply elem_of_filter. split.
    + split; [done|]. simpl. apply list_elem_of_here.
    + apply (Hrow p), list_elem_of_here.
Qed.

Lemma add_permissions_then_has_direct_permission_witness :
  (AddPermissions None sample_repository bob [write_posts]).2 = None ∧
  HasDirectPermission None
    (AddPermissions None sample_repository bob [write_posts]).1
    bob write_posts = (true, None).
Proof.
  split; [reflexivity|].
  destruct (add_permissions_then_has_direct_permission None
              sample_repository bob [write_posts] eq_refl) as [Heach _].
  apply Heach, list_elem_of_here.
Defined.

(** X14: [AddRoles] and [AddPermissions] never take a row away: whatever the
    store answers, every row present before the call is present after it,
    for every user. *)
Theorem add_keeps_rows :
  ∀ (fault : option Error) (repository : UserRepository) (userID : UUID)
    (roles : collections.Role.t) (permissions : collections.Permission.t),
    user_roles (Database repository)
      ⊆ user_roles (Database (AddRoles fault repository userID roles).1) ∧
    user_permissions (Database repository)
      ⊆ user_permissions
          (Database (AddPermissions fault repository userID permissions).1).
Proof.
  intros f [[ur up]] u R P. unfold AddRoles, AddPermissions.
  destruct f as [e|]; simpl; split; try done; apply union_subseteq_l.
Qed.


(** ** Removing and clearing, again *)

(** X16: [RemovePermissions] returns exactly the answer of the store; when
    the store accepts the delete, the rows that go are exactly the pairs of
    the user with a permission of the collection, and [user_roles] is
    untouched; removing pairs none of which is present changes nothing. *)
Theorem remove_permissions_exact :
  ∀ (fault : option Error) (repository : UserRepository) (userID : UUID)
    (permissions : collections.Permission.t),
    let result := RemovePermissions fault repository userID permissions in
    result.2 = fault ∧
    (fault = None →
     ∀ r, r ∈ user_permissions (Database result.1) ↔
          r ∈ user_permissions (Database repository) ∧
          ¬ (pivot.UserPermissions.UserID r = userID ∧
             pivot.UserPermissions.PermissionID r
               ∈ collections.Permission.IDs permissions)) ∧
    user_roles (Database result.1) = user_roles (Database repository) ∧
    ((∀ id, id ∈ collections.Permission.IDs permissions →
            pivot.UserPermissions.mk userID id
              ∉ user_permissions (Database repository)) →
     result.1 = repository).
Proof.
  intros f [[ur up]] u P. unfold RemovePermissions.
  destruct f as [e|]; simpl; [by repeat split|].
  split; [done|]. split; [|split; [done|]].
  - intros _ r.
    by rewrite elem_of_difference, elem_of_list_to_set,
         elem_of_userPermissions_of.
  - intros Habsent. do 2 f_equal. apply set_eq. intros r.
    rewrite elem_of_difference, elem_of_list_to_set,
      elem_of_userPermissions_of.
    split; [by intros [Hin _]|]. intros Hin. split; [done|].
    intros [Hu Hid]. destruct r as [u' id]; simpl in *. subst u'.
    by apply (Habsent id).
Qed.

Lemma remove_permissions_exact_witness :
  (RemovePermissions None sample_repository bob [read_posts]).1
  = sample_repository.
Proof.
  apply (remove_permissions_exact None sample_repository bob [read_posts]).
  intros id Hid. apply list_elem_of_In in Hid. simpl in Hid.
  destruct Hid as [<-|[]].
  apply (bool_decide_unpack _); vm_compute; exact I.
Defined.

(** X17: once [ClearPermissions] has succeeded no permission row of the
    user is left: [HasDirectPermission] and [HasAnyDirectPermissions] answer
    false whatever is asked, and [HasAllDirectPermissions], when the store
    answers, is true for the empty collection only. *)
Theorem clear_permissions_then_controls :
  ∀ (fault : option Error) (repository : UserRepository) (userID : UUID),
    (ClearPermissions fault repository userID).2 = None →
    let cleared := (ClearPermissions fault repository userID).1 in
    (∀ (query : option Error) (permission : models.Permission.t),
        HasDirectPermission query cleared userID permission
        = (false, query)) ∧
    (∀ (query : option Error) (permissions : collections.Permission.t),
        HasAnyDirectPermissions query cleared userID permissions
        = (false, query)) ∧
    (∀ permissions : collections.Permission.t,
        HasAllDirectPermissions None cleared userID permissions
        = (match permissions with [] => true | _ => false end, None)).
Proof.
  intros f [[ur up]] u. destruct f as [e|]; [discriminate|]. intros _.
  simpl.
  assert (∀ Q `{∀ r, Decision (Q r)},
            filter (λ r, pivot.UserPermissions.UserID r = u ∧ Q r)
                   (filter (λ r, ¬ pivot.UserPermissions.UserID r = u) up)
            = ∅) as Hnone.
  { intros Q HQ. apply set_eq. intros r.
    rewrite !elem_of_filter, elem_of_empty. tauto. }
  split; [|split].
  - intros q p. unfold HasDirectPermission, Count.
    destruct q as [e|]; [done|]. simpl. by rewrite Hnone.
  - intros q P. unfold HasAnyDirectPermissions, Count.
    destruct q as [e|]; [done|]. simpl. by rewrite Hnone.
  - intros P. unfold HasAllDirectPermissions, Count. simpl.
    rewrite Hnone, size_empty. by destruct P.
Qed.

Lemma clear_permissions_then_controls_witness :
  (ClearPermissions None sample_repository alice).2 = None ∧
  HasDirectPermission None (ClearPermissions None sample_repository alice).1
                      alice read_posts = (false, None).
Proof.
  split; [reflexivity|].
  destruct (clear_permissions_then_controls None sample_repository alice
              eq_refl) as [Hone _].
  apply Hone.
Defined.

(** X18: once [ClearRoles] has succeeded, [HasRole] answers false for every
    role, and [HasAllRoles], when the store answers, is true for the empty
    collection only. *)
Theorem clear_roles_then_controls :
  ∀ (fault : option Error) (repository : UserRepository) (userID : UUID),
    (ClearRoles fault repository userID).2 = None →
    let cleared := (ClearRoles fault repository userID).1 in
    (∀ (query : option Error) (role : models.Role.t),
        HasRole query cleared userID role = (false, query)) ∧
    (∀ roles : collections.Role.t,
        HasAllRoles None cleared userID roles
        = (match roles with [] => true | _ => false end, None)).
Proof.
  intros f [[ur up]] u. destruct f as [e|]; [discriminate|]. intros _.
  simpl.
  assert (∀ Q `{∀ r, Decision (Q r)},
            filter (λ r, pivot.UserRoles.UserID r = u ∧ Q r)
                   (filter (λ r, ¬ pivot.UserRoles.UserID r = u) ur)
            = ∅) as Hnone.
  { intros Q HQ. apply set_eq. intros r.
    rewrite !elem_of_filter, elem_of_empty. tauto. }
  split.
  - intros q role. unfold HasRole, Count.
    destruct q as [e|]; [done|]. simpl. by rewrite Hnone.
  - intros R. unfold HasAllRoles, Count. simpl.
    rewrite Hnone, size_empty. by destruct R.
Qed.

Lemma clear_roles_then_controls_witness :
  (ClearRoles None sample_repository alice).2 = None ∧
  HasAllRoles None (ClearRoles None sample_repository alice).1
              alice [admin] = (false, None).
Proof.
  split; [reflexivity|].
  destruct (clear_roles_then_controls None sample_repository alice
              eq_refl) as [_ Hall].
  apply (Hall [admin]).
Defined.



(** ** Round trips *)

(** X20: adding roles and then removing the same collection leaves the user
    with none of them; when none of the pairs was there before the add, the
    two calls together give back the store as it was. *)
Theorem add_then_remove_roles :
  ∀ (repository : UserRepository) (userID : UUID)
    (roles : collections.Role.t),
    let added := (AddRoles None repository userID roles).1 in
    let removed := (RemoveRoles None added userID roles).1 in
    (∀ id, id ∈ collections.Role.IDs roles →
           pivot.UserRoles.mk userID id ∉ user_roles (Database removed)) ∧
    ((∀ id, id ∈ collections.Role.IDs roles →
            pivot.UserRoles.mk userID id ∉ user_roles (Database repository)) →
     removed = repository).
Proof.
  intros [[ur up]] u R. unfold AddRoles, RemoveRoles. simpl. split.
  - intros id Hid Hin. apply elem_of_difference in Hin as [_ Hout].
    apply Hout, elem_of_list_to_set, elem_of_userRoles_of. done.
  - intros Habsent. do 2 f_equal. apply set_eq. intros r.
    rewrite elem_of_difference, elem_of_union, elem_of_list_to_set,
      elem_of_userRoles_of.
    split; [tauto|]. intros Hin. split; [by left|].
    intros [Hu Hid]. destruct r as [u' id]; simpl in *. subst u'.
    by apply (Habsent id).
Qed.

Lemma add_then_remove_roles_witness :
  (RemoveRoles None (AddRoles None sample_repository bob [editor; viewer]).1
               bob [editor; viewer]).1
  = sample_repository.
Proof.
  apply (add_then_remove_roles sample_repository bob [editor; viewer]).
  intros id Hid. apply list_elem_of_In in Hid. simpl in Hid.
  destruct Hid as [<-|[<-|[]]];
    apply (bool_decide_unpack _); vm_compute; exact I.
Defined.



(** ** What an action leaves alone *)

Lemma call_rows a ur up u :
  let after := Database (call a (mk (mkDB ur up)) u).1 in
  (∀ r, pivot.UserRoles.UserID r ≠ u → (r ∈ user_roles after ↔ r ∈ ur)) ∧
  (∀ r, pivot.UserPermissions.UserID r ≠ u →
        (r ∈ user_permissions after ↔ r ∈ up)) ∧
  (if about_roles a then user_permissions after = up
   else user_roles after = ur).
Proof.
  destruct a as [f P|b d c m P|f P|f|f R|b d c m R|f R|f]; simpl;
    try rewrite ReplacePermissions_eq; try rewrite ReplaceRoles_eq;
    unfold AddPermissions, RemovePermissions, ClearPermissions,
      AddRoles, RemoveRoles, ClearRoles;
    try (destruct f as [e|]; simpl; [by repeat split|]);
    try (destruct b as [e|], d as [e'|], c as [e''|], m as [e'''|];
         simpl; try by repeat split);
    (split; [|split; [|done]]); try done; intros r Hne;
    rewrite ?elem_of_union, ?elem_of_difference, ?elem_of_filter,
      ?elem_of_list_to_set, ?elem_of_userRoles_of,
      ?elem_of_userPermissions_of;
    tauto.
Qed.

Lemma Count_roles_of_user q (t t' : gset pivot.UserRoles.t) v
      (Q : pivot.UserRoles.t → Prop) `{∀ r, Decision (Q r)} :
  (∀ r, pivot.UserRoles.UserID r = v → (r ∈ t' ↔ r ∈ t)) →
  Count q t' (λ r, pivot.UserRoles.UserID r = v ∧ Q r)
  = Count q t (λ r, pivot.UserRoles.UserID r = v ∧ Q r).
Proof.
  intros Hsame. unfold Count. destruct q as [e|]; [done|].
  do 3 f_equal. apply set_eq. intros r. rewrite !elem_of_filter.
  split; intros [[Hu HQ] Hin]; (split; [done|]); by apply (Hsame r Hu).
Qed.

Lemma Count_permissions_of_user q (t t' : gset pivot.UserPermissions.t) v
      (Q : pivot.UserPermissions.t → Prop) `{∀ r, Decision (Q r)} :
  (∀ r, pivot.UserPermissions.UserID r = v → (r ∈ t' ↔ r ∈ t)) →
  Count q t' (λ r, pivot.UserPermissions.UserID r = v ∧ Q r)
  = Count q t (λ r, pivot.UserPermissions.UserID r = v ∧ Q r).
Proof.
  intros Hsame. unfold Count. destruct q as [e|]; [done|].
  do 3 f_equal. apply set_eq. intros r. rewrite !elem_of_filter.
  split; intros [[Hu HQ] Hin]; (split; [done|]); by apply (Hsame r Hu).
Qed.

(** X22: an action called for one user changes no answer about another
    user: each of the six controls, asked about a different user, answers
    after the action what it answered before, whether the action succeeded
    or failed. *)
Theorem action_keeps_answers_of_other_users :
  ∀ (a : Action) (repository : UserRepository) (userID other : UUID)
    (q : option Error),
    other ≠ userID →
    let after := (call a repository userID).1 in
    (∀ role, HasRole q after other role = HasRole q repository other role) ∧
    (∀ roles, HasAllRoles q after other roles
              = HasAllRoles q repository other roles) ∧
    (∀ roles, HasAnyRoles q after other roles
              = HasAnyRoles q repository other roles) ∧
    (∀ permission, HasDirectPermission q after other permission
                   = HasDirectPermission q repository other permission) ∧
    (∀ permissions, HasAllDirectPermissions q after other permissions
                    = HasAllDirectPermissions q repository other permissions) ∧
    (∀ permissions, HasAnyDirectPermissions q after other permissions
                    = HasAnyDirectPermissions q repository other permissions).
Proof.
  intros a [[ur up]] u v q Hne. simpl.
  destruct (call_rows a ur up u) as (Hroles & Hperms & _).
  assert (∀ r, pivot.UserRoles.UserID r = v →
               (r ∈ user_roles (Database (call a (mk (mkDB ur up)) u).1)
                ↔ r ∈ ur)) as Hr.
  { intros r Hv. apply Hroles. congruence. }
  assert (∀ r, pivot.UserPermissions.UserID r = v →
               (r ∈ user_permissions
                      (Database (call a (mk (mkDB ur up)) u).1)
                ↔ r ∈ up)) as Hp.
  { intros r Hv. apply Hperms. congruence. }
  unfold HasRole, HasAllRoles, HasAnyRoles, HasDirectPermission,
    HasAllDirectPermissions, HasAnyDirectPermissions. simpl.
  repeat split; intros x;
    first [ by rewrite (Count_roles_of_user q ur _ v _ Hr)
          | by rewrite (Count_permissions_of_user q up _ v _ Hp) ].
Qed.

Lemma action_keeps_answers_of_other_users_witness :
  HasAllRoles None
    (call (CallReplaceRoles None None None None [viewer])
          sample_repository alice).1 bob [admin]
  = HasAllRoles None sample_repository bob [admin].
Proof.
  assert (bob ≠ alice) as Hne by discriminate.
  destruct (action_keeps_answers_of_other_users
              (CallReplaceRoles None None None None [viewer])
              sample_repository alice bob None Hne) as (_ & Hall & _).
  apply Hall.
Defined.

(** X23: roles and direct permissions are kept apart: an action on roles
    changes no answer of the three permission controls, and an action on
    permissions changes no answer of the three role controls, for any user
    asked about, also the one acted on. *)
Theorem action_keeps_answers_of_other_kind :
  ∀ (a : Action) (repository : UserRepository) (userID asked : UUID)
    (q : option Error),
    let after := (call a repository userID).1 in
    (about_roles a = true →
     (∀ permission, HasDirectPermission q after asked permission
                    = HasDirectPermission q repository asked permission) ∧
     (∀ permissions,
         HasAllDirectPermissions q after asked permissions
         = HasAllDirectPermissions q repository asked permissions) ∧
     (∀ permissions,
         HasAnyDirectPermissions q after asked permissions
         = HasAnyDirectPermissions q repository asked permissions)) ∧
    (about_roles a = false →
     (∀ role, HasRole q after asked role = HasRole q repository asked role) ∧
     (∀ roles, HasAllRoles q after asked roles
               = HasAllRoles q repository asked roles) ∧
     (∀ roles, HasAnyRoles q after asked roles
               = HasAnyRoles q repository asked roles)).
Proof.
  intros a [[ur up]] u v q. simpl.
  destruct (call_rows a ur up u) as (_ & _ & Hkind).
  unfold HasRole, HasAllRoles, HasAnyRoles, HasDirectPermission,
    HasAllDirectPermissions, HasAnyDirectPermissions.
  split; intros Hb; rewrite Hb in Hkind; simpl; rewrite Hkind; done.
Qed.

Lemma action_keeps_answers_of_other_kind_witness :
  HasDirectPermission None
    (call (CallClearRoles None) sample_repository alice).1 alice read_posts
  = HasDirectPermission None sample_repository alice read_posts.
Proof.
  destruct (action_keeps_answers_of_other_kind (CallClearRoles None)
              sample_repository alice alice None) as [Hroles _].
  destruct (Hroles eq_refl) as [Hone _]. apply Hone.
Defined.

(** X24: a replace that the store accepts wipes out whatever an earlier
    action of the same kind did for the same user: the result is the one
    the replace gives on the store before that action.  In particular of two
    replaces in a row the last one wins. *)
Theorem replace_overrides_earlier_action :
  ∀ (a : Action) (repository : UserRepository) (userID : UUID)
    (roles : collections.Role.t) (permissions : collections.Permission.t),
    (about_roles a = true →
     ReplaceRoles None None None None (call a repository userID).1
                  userID roles
     = ReplaceRoles None None None None repository userID roles) ∧
    (about_roles a = false →
     ReplacePermissions None None None None (call a repository userID).1
                        userID permissions
     = ReplacePermissions None None None None repository userID permissions).
Proof.
  intros a [[ur up]] u R P.
  destruct (call_rows a ur up u) as (Hroles & Hperms & Hkind).
  destruct (call a (mk (mkDB ur up)) u) as [[[ur' up']] err]. simpl in *.
  rewrite !ReplaceRoles_eq, !ReplacePermissions_eq.
  split; intros Hb; rewrite Hb in Hkind; subst; do 3 f_equal.
  - f_equal. apply set_eq. intros r. rewrite !elem_of_filter.
    split; intros [Hne Hin]; (split; [done|]); by apply (Hroles r Hne).
  - f_equal. apply set_eq. intros r. rewrite !elem_of_filter.
    split; intros [Hne Hin]; (split; [done|]); by apply (Hperms r Hne).
Qed.

Lemma replace_overrides_earlier_action_witness :
  ReplaceRoles None None None None
    (call (CallReplaceRoles None None None None [admin; viewer])
          sample_repository alice).1 alice [editor]
  = ReplaceRoles None None None None sample_repository alice [editor].
Proof.
  destruct (replace_overrides_earlier_action
              (CallReplaceRoles None None None None [admin; viewer])
              sample_repository alice [editor] []) as [Hroles _].
  apply Hroles. reflexivity.
Defined.

(** ** The controls among themselves *)

(** X25: asking for one role with [HasAnyRoles] or [HasAllRoles] on the
    collection holding just that role is asking [HasRole], whatever the
    store answers: at most one row can match. *)
Theorem has_role_as_singleton :
  ∀ (q : option Error) (repository : UserRepository) (userID : UUID)
    (role : models.Role.t),
    HasAnyRoles q repository userID [role]
      = HasRole q repository userID role ∧
    HasAllRoles q repository userID [role]
      = HasRole q repository userID role.
Proof.
  intros q [[ur up]] u role. unfold HasAnyRoles, HasAllRoles, HasRole, Count.
  destruct q as [e|]; [done|]. simpl.
  set (row := pivot.UserRoles.mk u (models.Role.ID role)).
  assert (filter (λ r, pivot.UserRoles.UserID r = u ∧
                       pivot.UserRoles.RoleID r ∈ [models.Role.ID role]) ur
          = filter (λ r, pivot.UserRoles.UserID r = u ∧
                         pivot.UserRoles.RoleID r = models.Role.ID role) ur)
    as ->.
  { apply set_eq. intros r.
    by rewrite !elem_of_filter, list_elem_of_singleton. }
  split; [done|]. f_equal.
  assert (size (filter (λ r, pivot.UserRoles.UserID r = u ∧
                             pivot.UserRoles.RoleID r = models.Role.ID role)
                       ur) ≤ 1)%nat as Hle.
  { rewrite <- (size_singleton (C:=gset pivot.UserRoles.t) row).
    apply subseteq_size. intros [u' id] Hr.
    apply elem_of_filter in Hr as [[Hu Hid] _]. simpl in *. subst.
    by apply elem_of_singleton. }
  unfold collections.Role.Len. simpl length.
  destruct (size _) as [|[|n]]; [done|done|lia].
Qed.

(** X26: when the store answers both counts, a user who has all roles of a
    non-empty collection has some role of it. *)
Theorem has_all_roles_then_has_any_roles :
  ∀ (repository : UserRepository) (userID : UUID) (roles : collections.Role.t),
    roles ≠ [] →
    (HasAllRoles None repository userID roles).1 = true →
    (HasAnyRoles None repository userID roles).1 = true.
Proof.
  intros repo u R Hne. unfold HasAllRoles, HasAnyRoles, Count. simpl.
  rewrite Z.eqb_eq. intros <-. unfold collections.Role.Len.
  destruct R; [done|]. simpl length. by rewrite Z.gtb_ltb, Z.ltb_lt.
Qed.

Lemma has_all_roles_then_has_any_roles_witness :
  [admin; editor] ≠ [] ∧
  (HasAllRoles None sample_repository alice [admin; editor]).1 = true ∧
  (HasAnyRoles None sample_repository alice [admin; editor]).1 = true.
Proof.
  assert ([admin; editor] ≠ []) as Hne by discriminate.
  split; [exact Hne|]. split; [reflexivity|].
  apply (has_all_roles_then_has_any_roles sample_repository alice
           [admin; editor] Hne).
  reflexivity.
Defined.

(** X27: when the store answers, [HasAnyRoles] on the concatenation of two
    collections is the disjunction of [HasAnyRoles] on each. *)
Theorem has_any_roles_app :
  ∀ (repository : UserRepository) (userID : UUID)
    (R1 R2 : collections.Role.t),
    (HasAnyRoles None repository userID (R1 ++ R2)).1
    = (HasAnyRoles None repository userID R1).1
      || (HasAnyRoles None repository userID R2).1.
Proof.
  intros repo u R1 R2. unfold HasAnyRoles, Count. simpl.
  apply Bool.eq_true_iff_eq.
  rewrite orb_true_iff, !count_gt_0_true.
  unfold collections.Role.IDs. rewrite map_app. split.
  - intros [r Hr]. apply elem_of_filter in Hr as [[Hu Hid] Hin].
    apply elem_of_app in Hid as [Hid|Hid]; [left|right];
      exists r; by apply elem_of_filter.
  - intros [[r Hr]|[r Hr]]; apply elem_of_filter in Hr as [[Hu Hid] Hin];
      exists r; apply elem_of_filter;
      (split; [split; [done|]|done]); apply elem_of_app; auto.
Qed.
